(** * Stopwatch: elapsed-time accounting, display formatting, timer collection

    A shallow embedding of [app.py].  The three widget classes of the program
    ([TimeDisplay], [Stopwatch], [StopwatchApp]) become records and functions
    over them.

    Modelling conventions.
    - Python floats holding seconds are exact rationals ([Q]); the rounding
      error of binary floating point is left out.  Equality of durations is
      [==] ([Qeq]).
    - [monotonic()] is an explicit argument [now] of every method that reads
      the clock.
    - Textual's interval timer is a record with one flag; the callback of a
      paused timer does not run.
    - A DOM query is the list of the matching widgets in document order;
      [last] and [query_one] raise [NoMatches] when nothing matches. *)

From Stdlib Require Import QArith Qround Qabs Lqa ZArith Lia String Ascii Bool List.
Import ListNotations.
Open Scope Q_scope.

(** ** The refresh timer ([textual.timer.Timer]) *)

Record Timer := { active : bool }.

Definition pause (_ : Timer) : Timer := {| active := false |}.
Definition resume (_ : Timer) : Timer := {| active := true |}.

(** ** class TimeDisplay *)

Record TimeDisplay := {
  start_time : Q;
  time : Q;
  total : Q;
  update_timer : Timer
}.

(** Construction followed by [on_mount]: [start_time = reactive(monotonic)]
    takes the clock at creation, [time] and [total] start at [0.0], and the
    timer is created with [pause=True]. *)
Definition on_mount (now : Q) : TimeDisplay :=
  {| start_time := now; time := 0; total := 0;
     update_timer := {| active := false |} |}.

(** [self.time = self.total + (monotonic() - self.start_time)] *)
Definition update_time (now : Q) (self : TimeDisplay) : TimeDisplay :=
  {| start_time := start_time self;
     time := total self + (now - start_time self);
     total := total self;
     update_timer := update_timer self |}.

(** [self.start_time = monotonic(); self.update_timer.resume()] *)
Definition start (now : Q) (self : TimeDisplay) : TimeDisplay :=
  {| start_time := now;
     time := time self;
     total := total self;
     update_timer := resume (update_timer self) |}.

(** [self.update_timer.pause(); self.total += monotonic() - self.start_time;
    self.time = self.total] *)
Definition stop (now : Q) (self : TimeDisplay) : TimeDisplay :=
  let total' := total self + (now - start_time self) in
  {| start_time := start_time self;
     time := total';
     total := total';
     update_timer := pause (update_timer self) |}.

(** [self.total = 0; self.time = 0] *)
Definition reset (self : TimeDisplay) : TimeDisplay :=
  {| start_time := start_time self;
     time := 0;
     total := 0;
     update_timer := update_timer self |}.

(** One firing of the 1/60 s interval: the callback [update_time] runs
    unless the timer is paused. *)
Definition interval (now : Q) (self : TimeDisplay) : TimeDisplay :=
  if active (update_timer self) then update_time now self else self.

(** The elapsed value a refresh at instant [now] puts on display. *)
Definition current_elapsed (now : Q) (self : TimeDisplay) : Q :=
  time (interval now self).

Definition running (self : TimeDisplay) : bool := active (update_timer self).

(** Everything that can happen to a mounted [TimeDisplay]. *)
Inductive event := EStart | EStop | EReset | ETick.

Definition step (e : event) (now : Q) (self : TimeDisplay) : TimeDisplay :=
  match e with
  | EStart => start now self
  | EStop => stop now self
  | EReset => reset self
  | ETick => interval now self
  end.

(** States reached from a freshly mounted display by events whose clock
    readings never go back ([monotonic]).  The index is the reading of the
    last event. *)
Inductive reachable : Q -> TimeDisplay -> Prop :=
| reach_mount : forall t0, reachable t0 (on_mount t0)
| reach_step : forall c s e now,
    reachable c s -> c <= now -> reachable now (step e now s).

(** Replaying a log of timestamped events. *)
Fixpoint replay (log : list (event * Q)) (self : TimeDisplay) : TimeDisplay :=
  match log with
  | [] => self
  | (e, now) :: rest => replay rest (step e now self)
  end.

(** ** Number formatting: the [f] presentation type of [format] *)

Definition digit_char (d : Z) : ascii := ascii_of_nat (48 + Z.to_nat d).

(** Decimal digits of a non-negative integer, most significant first. *)
Fixpoint digits_fuel (fuel : nat) (n : Z) : list ascii :=
  match fuel with
  | O => [digit_char (n mod 10)]
  | S fuel' =>
      if (n <? 10)%Z then [digit_char n]
      else digits_fuel fuel' (n / 10) ++ [digit_char (n mod 10)]
  end.

Definition digits (n : Z) : list ascii := digits_fuel (Z.to_nat (Z.log2 n)) n.

(** Correct rounding of the exact value: ties go to the even neighbour. *)
Definition round_half_even (q : Q) : Z :=
  let f := Qfloor q in
  match Qcompare (q - inject_Z f) (1 # 2) with
  | Lt => f
  | Gt => (f + 1)%Z
  | Eq => if Z.even f then f else (f + 1)%Z
  end.

(** Zero fill without grouping: the digits are left-padded with ["0"] up to
    [min_width] characters. *)
Definition zfill (min_width : Z) (ds : list ascii) : list ascii :=
  repeat "0"%char (Z.to_nat (min_width - Z.of_nat (length ds))) ++ ds.

(** CPython's [_PyUnicode_InsertThousandsGrouping] with grouping [3, 3, ...]
    and separator [","].  It works from the least significant digit, so the
    digits come in and the characters go out in reverse order. *)
Fixpoint insert_thousands_grouping_rev (fuel : nat) (rds : list ascii)
    (min_width : Z) (use_separator : bool) : list ascii :=
  match fuel with
  | O => []
  | S fuel' =>
      let remaining := Z.of_nat (length rds) in
      let l := Z.min 3 (Z.max (Z.max remaining min_width) 1) in
      let n_zeros := Z.max 0 (l - remaining) in
      let n_chars := Z.max 0 (Z.min remaining l) in
      let out :=
        (if use_separator then [","%char] else [])
          ++ firstn (Z.to_nat n_chars) rds
          ++ repeat "0"%char (Z.to_nat n_zeros) in
      let rds' := skipn (Z.to_nat n_chars) rds in
      let min_width' := (min_width - l)%Z in
      if (Z.of_nat (length rds') <=? 0)%Z && (min_width' <=? 0)%Z then out
      else out ++ insert_thousands_grouping_rev fuel' rds' (min_width' - 1) true
  end.

Definition insert_thousands_grouping (ds : list ascii) (min_width : Z)
  : list ascii :=
  rev (insert_thousands_grouping_rev
         (S (length ds + Z.to_nat min_width)) (rev ds) min_width false).

(** [format(x, "0{width}[,].{precision}f")]: sign, integer digits zero-filled
    (and grouped when [comma]) up to the width left by the other parts, then
    the decimal point and [precision] decimals. *)
Definition format_float (width : Z) (comma : bool) (precision : nat) (x : Q)
  : string :=
  let scale := (10 ^ Z.of_nat precision)%Z in
  let n := round_half_even (Qabs x * inject_Z scale) in
  let int_digits := digits (n / scale) in
  let remainder :=
    match precision with
    | O => []
    | S _ => "."%char :: zfill (Z.of_nat precision) (digits (n mod scale))
    end in
  let sign := if Qle_bool 0 x then [] else ["-"%char] in
  let min_width :=
    (width - Z.of_nat (length sign) - Z.of_nat (length remainder))%Z in
  let int_part :=
    if comma then insert_thousands_grouping int_digits min_width
    else zfill min_width int_digits in
  string_of_list_ascii (sign ++ int_part ++ remainder).

(** Python's [divmod] for a positive divisor: floor quotient and remainder. *)
Definition divmod (x y : Q) : Q * Q :=
  let q := inject_Z (Qfloor (x / y)) in (q, x - q * y).

(** [watch_time]: the text handed to [self.update],
    [f"{hours:02,.0f}:{minutes:02.0f}:{seconds:05.2f}"]. *)
Definition watch_time (time : Q) : string :=
  let '(minutes, seconds) := divmod time 60 in
  let '(hours, minutes) := divmod minutes 60 in
  (format_float 2 true 0 hours ++ ":"
     ++ format_float 2 false 0 minutes ++ ":"
     ++ format_float 5 false 2 seconds)%string.

(** ** class Stopwatch *)

(** A stopwatch owns one [TimeDisplay]; [started] is the CSS class that
    [add_class]/[remove_class] toggle. *)
Record Stopwatch := {
  time_display : TimeDisplay;
  started : bool
}.

(** [Stopwatch()] once composed and mounted at clock reading [now]. *)
Definition new_Stopwatch (now : Q) : Stopwatch :=
  {| time_display := on_mount now; started := false |}.

(** [on_button_pressed]: dispatch on the id of the pressed button. *)
Definition on_button_pressed (button_id : string) (now : Q) (self : Stopwatch)
  : Stopwatch :=
  if String.eqb button_id "start" then
    {| time_display := start now (time_display self); started := true |}
  else if String.eqb button_id "stop" then
    {| time_display := stop now (time_display self); started := false |}
  else if String.eqb button_id "reset" then
    {| time_display := reset (time_display self); started := started self |}
  else self.

(** ** class StopwatchApp *)

(** The app's state: the dark-mode flag and the children of the [#timers]
    container in document order. *)
Record StopwatchApp := {
  dark : bool;
  timers : list Stopwatch
}.

(** What a DOM call can raise. *)
Inductive exn := NoMatches.

Inductive result (A : Type) :=
| Ok (a : A)
| Raise (e : exn).
Arguments Ok {A} a.
Arguments Raise {A} e.

Definition bind {A B : Type} (r : result A) (k : A -> result B) : result B :=
  match r with
  | Ok a => k a
  | Raise e => Raise e
  end.

(** [self.query("Stopwatch")]: the matching widgets, each with its position
    under [#timers], which stands for the widget's identity. *)
Definition query_Stopwatch (self : StopwatchApp) : list (nat * Stopwatch) :=
  combine (seq 0 (length (timers self))) (timers self).

(** [DOMQuery.last()] raises [NoMatches] on an empty query. *)
Definition last {A : Type} (q : list A) : result A :=
  match rev q with
  | [] => Raise NoMatches
  | w :: _ => Ok w
  end.

(** [widget.remove()] for the widget at position [i]. *)
Definition remove (i : nat) (self : StopwatchApp) : StopwatchApp :=
  {| dark := dark self;
     timers := firstn i (timers self) ++ skipn (S i) (timers self) |}.

(** [DOMQuery.remove()]: every widget of the query leaves the DOM.  The query
    is applied from its end so that positions stay valid. *)
Definition remove_all (q : list (nat * Stopwatch)) (self : StopwatchApp)
  : StopwatchApp :=
  fold_right (fun w app => remove (fst w) app) self q.

(** [compose]: header, footer and a container holding one stopwatch.  The
    app starts in Textual's default dark mode. *)
Definition compose (now : Q) : StopwatchApp :=
  {| dark := true; timers := [new_Stopwatch now] |}.

(** [action_add_stopwatch]: mount a new stopwatch at the end of [#timers]. *)
Definition action_add_stopwatch (now : Q) (self : StopwatchApp)
  : result StopwatchApp :=
  let new_stopwatch := new_Stopwatch now in
  Ok {| dark := dark self; timers := timers self ++ [new_stopwatch] |}.

(** [action_remove_all_stopwatches] *)
Definition action_remove_all_stopwatches (self : StopwatchApp)
  : result StopwatchApp :=
  let timers := query_Stopwatch self in
  Ok (remove_all timers self).

(** [action_remove_stopwatch]: [if timers: timers.last().remove()] *)
Definition action_remove_stopwatch (self : StopwatchApp)
  : result StopwatchApp :=
  let timers := query_Stopwatch self in
  match timers with
  | [] => Ok self
  | _ :: _ => bind (last timers) (fun w => Ok (remove (fst w) self))
  end.

(** [action_reset_all_stopwatches]: [reset] the display of every stopwatch. *)
Definition action_reset_all_stopwatches (self : StopwatchApp)
  : result StopwatchApp :=
  Ok {| dark := dark self;
        timers :=
          map (fun timer =>
                 {| time_display := reset (time_display timer);
                    started := started timer |})
              (timers self) |}.

(** [action_toggle_dark] *)
Definition action_toggle_dark (self : StopwatchApp) : result StopwatchApp :=
  Ok {| dark := negb (dark self); timers := timers self |}.

(** The key bindings that act on the collection. *)
Inductive action :=
| add_stopwatch (now : Q)
| remove_all_stopwatches
| remove_stopwatch
| reset_all_stopwatches
| toggle_dark.

Definition run_action (a : action) (self : StopwatchApp)
  : result StopwatchApp :=
  match a with
  | add_stopwatch now => action_add_stopwatch now self
  | remove_all_stopwatches => action_remove_all_stopwatches self
  | remove_stopwatch => action_remove_stopwatch self
  | reset_all_stopwatches => action_reset_all_stopwatches self
  | toggle_dark => action_toggle_dark self
  end.

(** ** The rendering as the specification words it

    These definitions follow the specification, not the code: the duration
    is cut into whole hours, whole minutes below 60 and seconds rounded to
    hundredths; hours are zero-padded to at least two digits and get a comma
    every three digits, minutes and seconds are two digits each, and the
    seconds carry two decimals. *)

Definition two_digits (n : Z) : list ascii :=
  [digit_char (n / 10); digit_char (n mod 10)].

(** A comma after every third digit, on digits in reverse order. *)
Fixpoint group3_rev (rds : list ascii) : list ascii :=
  match rds with
  | a :: b :: c :: ((_ :: _) as rest) =>
      a :: b :: c :: ","%char :: group3_rev rest
  | _ => rds
  end.

Definition group3 (ds : list ascii) : list ascii := rev (group3_rev (rev ds)).

Definition hours_of (t : Q) : Z := Qfloor (t / 3600).
Definition minutes_of (t : Q) : Z := (Qfloor (t / 60) mod 60)%Z.
Definition seconds_of (t : Q) : Q := t - inject_Z (Qfloor (t / 60)) * 60.
Definition hundredths_of (t : Q) : Z := round_half_even (seconds_of t * 100).

Definition render_HH_MM_SS (t : Q) : string :=
  (string_of_list_ascii (group3 (zfill 2 (digits (hours_of t)))) ++ ":"
     ++ string_of_list_ascii (two_digits (minutes_of t)) ++ ":"
     ++ string_of_list_ascii
          (two_digits (hundredths_of t / 100)
             ++ "."%char :: two_digits (hundredths_of t mod 100)))%string.

(** The number a string of decimal digits denotes. *)
Definition digits_value (ds : list ascii) : Z :=
  fold_left (fun acc c => (10 * acc + (Z.of_nat (nat_of_ascii c) - 48))%Z) ds 0%Z.

(** The double closest to 59.999, as the exact rational it stands for. *)
Definition double_59_999 : Q := 8444108563831325 # 140737488355328.

(** ** The rest of the widgets *)

(** What [Stopwatch.compose] yields, in order: three buttons and the time
    display with its first text. *)
Inductive child :=
| Button (label id : string) (variant : option string)
| TimeDisplay_child (renderable : string).

Definition Stopwatch_compose : list child :=
  [ Button "Start" "start" (Some "success"%string);
    Button "Stop" "stop" (Some "error"%string);
    Button "Reset" "reset" None;
    TimeDisplay_child "00:00:00.00" ].

Definition button_ids (cs : list child) : list string :=
  flat_map (fun c => match c with
                     | Button _ id _ => [id]
                     | TimeDisplay_child _ => []
                     end) cs.

(** A series of button presses on one stopwatch, each with its clock
    reading. *)
Fixpoint press_all (log : list (string * Q)) (w : Stopwatch) : Stopwatch :=
  match log with
  | [] => w
  | (button_id, now) :: rest =>
      press_all rest (on_button_pressed button_id now w)
  end.

(** The presses of a series of run segments: start at [fst], stop at
    [snd]. *)
Definition segment_presses (segs : list (Q * Q)) : list (string * Q) :=
  flat_map (fun seg => [("start"%string, fst seg); ("stop"%string, snd seg)])
           segs.

Definition segments_length (segs : list (Q * Q)) : Q :=
  fold_right (fun seg acc => (snd seg - fst seg) + acc) 0 segs.

(** A [TimeDisplay] together with the text it shows.  [time] is a reactive
    attribute: an assignment runs the watcher [watch_time], which calls
    [self.update], only when the new value differs from the old one. *)
Record Shown := {
  display : TimeDisplay;
  renderable : string
}.

Definition assign_time (old new : Q) (text : string) : string :=
  if Qeq_bool old new then text else watch_time new.

(** The display as [Stopwatch.compose] creates it. *)
Definition shown_on_mount (now : Q) : Shown :=
  {| display := on_mount now;
     renderable :=
       match Stopwatch_compose with
       | [_; _; _; TimeDisplay_child text] => text
       | _ => EmptyString
       end |}.

(** Every method assigns [time] at most once, so one event is the state
    change followed by one run of the reactive assignment. *)
Definition shown_step (e : event) (now : Q) (w : Shown) : Shown :=
  let s' := step e now (display w) in
  {| display := s';
     renderable := assign_time (time (display w)) (time s') (renderable w) |}.

Fixpoint shown_replay (log : list (event * Q)) (w : Shown) : Shown :=
  match log with
  | [] => w
  | (e, now) :: rest => shown_replay rest (shown_step e now w)
  end.

(** A log of refreshes only. *)
Definition ticks (instants : list Q) : list (event * Q) :=
  map (fun now => (ETick, now)) instants.

(** A series of key-bound actions; the first exception ends it. *)
Fixpoint run_actions (l : list action) (self : StopwatchApp)
  : result StopwatchApp :=
  match l with
  | [] => Ok self
  | a :: rest => bind (run_action a self) (run_actions rest)
  end.

(** How an action changes a count of stopwatches. *)
Definition count_after (a : action) (n : nat) : nat :=
  match a with
  | add_stopwatch _ => S n
  | remove_all_stopwatches => 0%nat
  | remove_stopwatch => Nat.pred n
  | reset_all_stopwatches => n
  | toggle_dark => n
  end.

(** Reading a text of [watch_time] back: the text is cut at the two colons
    and at the point, and the digits of each part are read as a number
    (commas are skipped). *)
Definition is_digit (c : ascii) : bool :=
  ((48 <=? nat_of_ascii c)%nat && (nat_of_ascii c <=? 57)%nat)%bool.

Definition read_number (s : list ascii) : Z :=
  digits_value (filter is_digit s).

Fixpoint cut_at (sep : ascii) (s : list ascii)
  : option (list ascii * list ascii) :=
  match s with
  | [] => None
  | c :: rest =>
      if Ascii.eqb c sep then Some ([], rest)
      else match cut_at sep rest with
           | Some (before, after) => Some (c :: before, after)
           | None => None
           end
  end.

Definition read_time (text : string) : option (Z * Z * Z) :=
  match cut_at ":"%char (list_ascii_of_string text) with
  | Some (hh, rest) =>
      match cut_at ":"%char rest with
      | Some (mm, sec) =>
          match cut_at "."%char sec with
          | Some (ss, cc) =>
              Some (read_number hh, read_number mm,
                    (100 * read_number ss + read_number cc)%Z)
          | None => None
          end
      | None => None
      end
  | None => None
  end.

(** The seconds field alone, [f"{seconds:05.2f}"]. *)
Definition seconds_field (time : Q) : string :=
  format_float 5 false 2 (snd (divmod time 60)).

(** The characters of [render_HH_MM_SS], field by field. *)
Definition render_chars (t : Q) : list ascii :=
  group3 (zfill 2 (digits (hours_of t)))
    ++ ":"%char :: two_digits (minutes_of t)
    ++ ":"%char :: two_digits (hundredths_of t / 100)
    ++ "."%char :: two_digits (hundredths_of t mod 100).

(** Digits and the grouping comma: the characters of an hours field. *)
Definition digit_or_comma (c : ascii) : Prop :=
  is_digit c = true \/ c = ","%char.



(** ** Properties kept by every reachable display *)

(** The start instant is never ahead of the clock, neither the banked nor
    the shown time is negative, and a paused display shows exactly the banked
    time. *)
Definition inv (c : Q) (s : TimeDisplay) : Prop :=
  start_time s <= c /\ 0 <= total s /\ 0 <= time s
  /\ (running s = false -> time s == total s).

(** Example states: a display started at clock 0, and one started at 0 and
    stopped at 3. *)
Definition started_at_0 : TimeDisplay := start 0 (on_mount 0).
Definition banked_3 : TimeDisplay := stop 3 started_at_0.

(** * Elapsed-time accounting *)

Section Accounting.

Implicit Types (s : TimeDisplay) (now c t : Q).

Lemma current_elapsed_running now s :
  running s = true -> current_elapsed now s == total s + (now - start_time s).
Proof.
  unfold current_elapsed, interval, running. intros ->. simpl. reflexivity.
Qed.

Lemma current_elapsed_paused now s :
  running s = false -> current_elapsed now s == time s.
Proof.
  unfold current_elapsed, interval, running. intros ->. reflexivity.
Qed.

Lemma inv_mount t0 : inv t0 (on_mount t0).
Proof. unfold inv; simpl. repeat split; try lra. Qed.

Lemma inv_step c s e now : inv c s -> c <= now -> inv now (step e now s).
Proof.
  unfold inv, running. intros (Hst & Htot & Htime & Hp) Hc.
  destruct e; simpl; [ | | | unfold interval;
    destruct (active (update_timer s)) eqn:E; simpl; rewrite ?E ];
    (split; [lra | split; [lra | split; [lra | ]]]);
    intros Hr; try discriminate Hr; try lra; auto.
Qed.

Lemma reachable_inv c s : reachable c s -> inv c s.
Proof.
  induction 1 as [t0 | c s e now _ IH Hle].
  - apply inv_mount.
  - eapply inv_step; eauto.
Qed.

Lemma reachable_started_at_0 : reachable 0 started_at_0.
Proof.
  apply (reach_step 0 (on_mount 0) EStart 0); [apply reach_mount | lra].
Qed.

Lemma reachable_banked_3 : reachable 3 banked_3.
Proof.
  apply (reach_step 0 started_at_0 EStop 3);
    [apply reachable_started_at_0 | lra].
Qed.

End Accounting.

(** ** [stop] *)

(** C1 (as the code has it).  [stop] has no check of the running state: on
    every display it pauses the timer, leaves [start_time] alone, adds
    [now - start_time] to [total] and shows the new [total].  Two calls in a
    row therefore end with the same running flag and the same [start_time]
    as one call, but the second call adds [now2 - start_time] once more;
    [total] is the same as after one call exactly when the second call is
    made at the instant [start_time]. *)
Theorem stop_twice (now1 now2 : Q) (s : TimeDisplay) :
  let s1 := stop now1 s in
  let s2 := stop now2 s1 in
  (running s1 = false /\ start_time s1 = start_time s
     /\ total s1 == total s + (now1 - start_time s) /\ time s1 == total s1)
  /\ running s2 = running s1
  /\ start_time s2 = start_time s1
  /\ total s2 == total s1 + (now2 - start_time s)
  /\ time s2 == total s2
  /\ (total s2 == total s1 <-> now2 == start_time s).
Proof.
  simpl. repeat split; try reflexivity; intros; lra.
Qed.

(** C1 fails as stated: the display stopped at 3 is not running and has 3
    seconds banked; a second [stop] at clock 5 banks 5 more. *)
Lemma stop_twice_counterexample :
  reachable 3 banked_3 /\ running banked_3 = false
  /\ total banked_3 == 3
  /\ total (stop 5 banked_3) == 8
  /\ ~ total (stop 5 banked_3) == total banked_3.
Proof.
  split; [apply reachable_banked_3 | ].
  split; [reflexivity | ].
  repeat split; try reflexivity. intros H. vm_compute in H. discriminate H.
Qed.

(** ** [reset] *)

(** C2 at its failing input.  A display started at clock 0 is reset at
    clock 5: the banked time and the shown time become 0 and the timer keeps
    running, but [start_time] is still 0, so the refresh at 5 shows 5 and
    the one at 6 shows 6; the count does not restart from zero. *)
Theorem reset_running_keeps_start_time :
  running started_at_0 = true
  /\ total (reset started_at_0) == 0
  /\ time (reset started_at_0) == 0
  /\ running (reset started_at_0) = true
  /\ start_time (reset started_at_0) == 0
  /\ current_elapsed 5 (reset started_at_0) == 5
  /\ current_elapsed 6 (reset started_at_0) == 6.
Proof. repeat split. Qed.

(** C4 on the code.  Right after [reset] the stored [time] is 0; the value
    a refresh at instant [now] shows is 0 for a paused display and
    [now - start_time] for a running one, which is 5 for the display started
    at 0 and reset at 5. *)
Theorem reset_current_elapsed (now : Q) (s : TimeDisplay) :
  time (reset s) == 0
  /\ current_elapsed now (reset s)
     == (if running s then now - start_time s else 0)
  /\ current_elapsed 5 (reset started_at_0) == 5.
Proof.
  split; [reflexivity | split; [ | reflexivity ]].
  unfold current_elapsed, interval, running. simpl.
  destruct (active (update_timer s)); simpl; lra.
Qed.

(** ** [start] *)

(** C3 (as the code has it).  [start] has no check of the running state: it
    always records [start_time = now] and resumes the timer.  On a running
    display [total], the running flag and the stored [time] are unchanged,
    [start_time] moves to [now], and a refresh at [t] shows
    [total + (t - now)]; that is the value shown before exactly when [now] is
    the old [start_time]. *)
Theorem start_while_running (now : Q) (s : TimeDisplay) :
  running s = true ->
  total (start now s) = total s
  /\ running (start now s) = true
  /\ time (start now s) = time s
  /\ start_time (start now s) = now
  /\ (forall t, current_elapsed t (start now s) == total s + (t - now))
  /\ (forall t, current_elapsed t (start now s) == current_elapsed t s
                <-> now == start_time s).
Proof.
  intros Hr. repeat split; try reflexivity.
  - intros H. rewrite (current_elapsed_running t s Hr) in H.
    unfold current_elapsed in H. simpl in H. lra.
  - intros H. rewrite (current_elapsed_running t s Hr).
    unfold current_elapsed. simpl. lra.
Qed.

Lemma start_while_running_witness :
  running started_at_0 = true
  /\ start_time (start 5 started_at_0) = 5
  /\ current_elapsed 5 (start 5 started_at_0) == total started_at_0 + (5 - 5).
Proof.
  split; [reflexivity | ].
  destruct (start_while_running 5 started_at_0 eq_refl)
    as (_ & _ & _ & Hs & He & _).
  split; [exact Hs | exact (He 5)].
Defined.

(** C3 fails as stated: the display started at 0 is running; [start] at
    clock 5 moves [start_time] from 0 to 5 and the elapsed value shown at 5
    drops from 5 to 0. *)
Lemma start_while_running_counterexample :
  reachable 0 started_at_0 /\ running started_at_0 = true
  /\ start_time started_at_0 == 0
  /\ start_time (start 5 started_at_0) == 5
  /\ current_elapsed 5 started_at_0 == 5
  /\ current_elapsed 5 (start 5 started_at_0) == 0
  /\ ~ current_elapsed 5 (start 5 started_at_0) == current_elapsed 5 started_at_0.
Proof.
  split; [apply reachable_started_at_0 | ].
  repeat split. intros H. vm_compute in H. discriminate H.
Qed.

(** ** Invariants of reachable displays *)

Lemma elapsed_step_monotone (c now : Q) (s : TimeDisplay) (e : event) :
  inv c s -> c <= now ->
  e <> EReset -> (e = EStart -> running s = false) ->
  current_elapsed c s <= current_elapsed now (step e now s).
Proof.
  unfold inv, running, current_elapsed.
  intros (Hst & Htot & _ & Hp) Hc Hreset Hstart.
  destruct e; simpl; unfold interval; simpl.
  - rewrite (Hstart eq_refl).
    specialize (Hp (Hstart eq_refl)). lra.
  - destruct (active (update_timer s)); simpl; [lra | ].
    specialize (Hp eq_refl). lra.
  - congruence.
  - destruct (active (update_timer s)) eqn:E; simpl; rewrite E; simpl; lra.
Qed.

(** C5 (as the code has it).  In every reachable state: a refresh at [now]
    shows [total + (now - start_time)] when the display runs and [total]
    when it is paused; [total] is never negative; and the shown elapsed value
    does not go down over a refresh, a [stop], or a [start] of a paused
    display.  It can go down over [reset] and over a [start] issued while the
    display is already running. *)
Theorem reachable_invariants (c : Q) (s : TimeDisplay) :
  reachable c s ->
  (forall now, running s = true ->
     current_elapsed now s == total s + (now - start_time s))
  /\ (forall now, running s = false -> current_elapsed now s == total s)
  /\ 0 <= total s
  /\ (forall e now, c <= now ->
        e <> EReset -> (e = EStart -> running s = false) ->
        current_elapsed c s <= current_elapsed now (step e now s)).
Proof.
  intros Hreach. pose proof (reachable_inv c s Hreach) as Hinv.
  split; [ | split; [ | split ]].
  - intros now Hr. apply current_elapsed_running, Hr.
  - intros now Hr. rewrite (current_elapsed_paused now s Hr).
    destruct Hinv as (_ & _ & _ & Hp). apply Hp, Hr.
  - destruct Hinv as (_ & Htot & _). exact Htot.
  - intros e now Hc Hreset Hstart.
    apply elapsed_step_monotone; assumption.
Qed.

Lemma reachable_invariants_witness :
  reachable 3 banked_3
  /\ 0 <= total banked_3
  /\ current_elapsed 3 banked_3 <= current_elapsed 10 (step EStart 10 banked_3).
Proof.
  split; [apply reachable_banked_3 | ].
  destruct (reachable_invariants 3 banked_3 reachable_banked_3)
    as (_ & _ & Htot & Hmono).
  split; [exact Htot | ].
  apply Hmono; [lra | discriminate | reflexivity].
Defined.

(** C5 fails as stated: in the reachable state started at 0, with the clock
    at 0, a [start] at clock 5 is not a reset, yet the elapsed value shown
    at 5 goes from 5 down to 0. *)
Lemma elapsed_decreases_counterexample :
  reachable 5 (step ETick 5 started_at_0)
  /\ EStart <> EReset
  /\ current_elapsed 5 (step ETick 5 started_at_0) == 5
  /\ current_elapsed 5 (step EStart 5 (step ETick 5 started_at_0)) == 0
  /\ current_elapsed 5 (step EStart 5 (step ETick 5 started_at_0))
     < current_elapsed 5 (step ETick 5 started_at_0).
Proof.
  split.
  - apply (reach_step 0 started_at_0 ETick 5);
      [apply reachable_started_at_0 | lra].
  - split; [discriminate | ]. repeat split.
Qed.

(** ** [stop] then [start] at one instant *)

Lemma stop_start_any_instant (now t : Q) (s : TimeDisplay) :
  running s = true ->
  current_elapsed t (start now (stop now s)) == current_elapsed t s.
Proof.
  intros Hr. rewrite (current_elapsed_running t s Hr).
  unfold current_elapsed, interval. simpl. lra.
Qed.

(** C6.  For a running display, [stop] followed by [start] at the same clock
    reading [now] leaves the elapsed value shown at [now] as it was: the
    segment is banked once and the new segment starts empty. *)
Theorem stop_start_same_instant (now : Q) (s : TimeDisplay) :
  running s = true ->
  current_elapsed now (start now (stop now s)) == current_elapsed now s
  /\ running (start now (stop now s)) = true.
Proof.
  intros Hr. split; [apply stop_start_any_instant, Hr | reflexivity].
Qed.

Lemma stop_start_same_instant_witness :
  running started_at_0 = true
  /\ current_elapsed 7 (start 7 (stop 7 started_at_0))
     == current_elapsed 7 started_at_0.
Proof.
  split; [reflexivity | ].
  apply (stop_start_same_instant 7 started_at_0 eq_refl).
Defined.

(** ** The two-segment scenario *)

(** C9.  A fresh display (mounted at any clock reading [t0]) is started at 0,
    stopped at 3 and started again at 10: 3 seconds are banked, and the
    refresh at 12 shows 5 = 3 + 2; the pause from 3 to 10 is not counted. *)
Theorem scenario_two_segments (t0 : Q) :
  let s := replay [(EStart, 0); (EStop, 3); (EStart, 10)] (on_mount t0) in
  s = start 10 (stop 3 (start 0 (on_mount t0)))
  /\ total s == 3
  /\ running s = true
  /\ current_elapsed 12 s == 5.
Proof. repeat split. Qed.

(** * The timer collection *)

Lemma combine_snoc {A B : Type} (a : list A) (l : list B) (n : A) (x : B) :
  length a = length l ->
  combine (a ++ [n]) (l ++ [x]) = combine a l ++ [(n, x)].
Proof.
  revert l. induction a as [ | a0 a IH]; intros [ | l0 l] Hlen;
    try discriminate Hlen; simpl; [reflexivity | ].
  f_equal. apply IH. simpl in Hlen. congruence.
Qed.

Lemma query_Stopwatch_snoc (d : bool) (l : list Stopwatch) (x : Stopwatch) :
  query_Stopwatch {| dark := d; timers := l ++ [x] |}
  = query_Stopwatch {| dark := d; timers := l |} ++ [(length l, x)].
Proof.
  unfold query_Stopwatch; simpl.
  rewrite length_app; simpl. rewrite Nat.add_1_r, seq_S; simpl.
  rewrite combine_snoc by (rewrite length_seq; reflexivity).
  reflexivity.
Qed.

Lemma remove_snoc (d : bool) (l : list Stopwatch) (x : Stopwatch) :
  remove (length l) {| dark := d; timers := l ++ [x] |}
  = {| dark := d; timers := l |}.
Proof.
  unfold remove. cbn [dark timers]. f_equal.
  rewrite skipn_all2 by (rewrite length_app; simpl; lia).
  rewrite firstn_app, Nat.sub_diag, firstn_all. cbn [firstn].
  rewrite !app_nil_r. reflexivity.
Qed.

Lemma remove_all_query (d : bool) (l : list Stopwatch) :
  remove_all (query_Stopwatch {| dark := d; timers := l |})
             {| dark := d; timers := l |}
  = {| dark := d; timers := [] |}.
Proof.
  induction l as [ | x l IH] using rev_ind; [reflexivity | ].
  rewrite query_Stopwatch_snoc. unfold remove_all in *.
  rewrite fold_right_app; simpl. rewrite remove_snoc. exact IH.
Qed.

Lemma action_remove_stopwatch_snoc (d : bool) (l : list Stopwatch)
    (x : Stopwatch) :
  action_remove_stopwatch {| dark := d; timers := l ++ [x] |}
  = Ok {| dark := d; timers := l |}.
Proof.
  unfold action_remove_stopwatch. rewrite query_Stopwatch_snoc.
  destruct (query_Stopwatch {| dark := d; timers := l |} ++ [(length l, x)])
    as [ | w q] eqn:E.
  - destruct (query_Stopwatch {| dark := d; timers := l |}); discriminate E.
  - rewrite <- E. unfold last. rewrite rev_app_distr; simpl.
    rewrite remove_snoc. reflexivity.
Qed.

(** C8.  [action_remove_stopwatch] leaves an empty collection as it is and
    returns normally; on a collection ending in [x] it removes exactly [x],
    so it undoes the latest [action_add_stopwatch]; and every action of the
    collection returns normally in every state. *)
Theorem remove_last_safe :
  (forall d,
     action_remove_stopwatch {| dark := d; timers := [] |}
     = Ok {| dark := d; timers := [] |})
  /\ (forall d l x,
        action_remove_stopwatch {| dark := d; timers := l ++ [x] |}
        = Ok {| dark := d; timers := l |})
  /\ (forall now app,
        bind (action_add_stopwatch now app) action_remove_stopwatch = Ok app)
  /\ (forall app,
        bind (action_remove_all_stopwatches app) action_remove_stopwatch
        = Ok {| dark := dark app; timers := [] |})
  /\ (forall a app, exists app', run_action a app = Ok app').
Proof.
  split; [reflexivity | ].
  split; [exact action_remove_stopwatch_snoc | ].
  split; [ | split ].
  - intros now [d l]; simpl. apply action_remove_stopwatch_snoc.
  - intros [d l]; simpl. rewrite remove_all_query. reflexivity.
  - intros a [d l]. destruct a; simpl; try (eexists; reflexivity).
    destruct l as [ | x l] using rev_ind.
    + eexists; reflexivity.
    + rewrite action_remove_stopwatch_snoc. eexists; reflexivity.
Qed.

(** * Display formatting *)

Section Formatting.

Lemma round_half_even_comp (p q : Q) :
  p == q -> round_half_even p = round_half_even q.
Proof.
  intros H. unfold round_half_even.
  rewrite (Qfloor_comp _ _ H).
  assert (E : p - inject_Z (Qfloor q) == q - inject_Z (Qfloor q))
    by (rewrite H; reflexivity).
  rewrite (Qcompare_comp _ _ E _ _ (Qeq_refl (1 # 2))). reflexivity.
Qed.

Lemma round_half_even_Z (q : Q) (z : Z) :
  q == inject_Z z -> round_half_even q = z.
Proof.
  intros H. rewrite (round_half_even_comp _ _ H). unfold round_half_even.
  rewrite Qfloor_Z.
  destruct (Qcompare (inject_Z z - inject_Z z) (1 # 2)) eqn:E.
  - apply Qeq_alt in E. lra.
  - reflexivity.
  - apply Qgt_alt in E. lra.
Qed.

(** The rounded value is the floor or the floor plus one, and it is the
    floor unless the fraction is at least one half. *)
Lemma round_half_even_bounds (q : Q) :
  (Qfloor q <= round_half_even q <= Qfloor q + 1)%Z
  /\ (round_half_even q = (Qfloor q + 1)%Z -> inject_Z (Qfloor q) + (1 # 2) <= q).
Proof.
  unfold round_half_even.
  destruct (Qcompare (q - inject_Z (Qfloor q)) (1 # 2)) eqn:E.
  - apply Qeq_alt in E. destruct (Z.even (Qfloor q)); split; try lia;
      intros _; lra.
  - split; [lia | intros ?; lia].
  - apply Qgt_alt in E. split; [lia | intros _; lra].
Qed.

Lemma round_half_even_range (q : Q) (hi : Z) :
  0 <= q -> q < inject_Z hi -> (0 <= round_half_even q <= hi)%Z.
Proof.
  intros H0 Hhi.
  destruct (round_half_even_bounds q) as [[Hlo Hup] _].
  assert (F0 : (0 <= Qfloor q)%Z).
  { rewrite <- (Qfloor_Z 0). apply Qfloor_resp_le. exact H0. }
  assert (F1 : (Qfloor q < hi)%Z).
  { rewrite Zlt_Qlt. pose proof (Qfloor_le q). lra. }
  lia.
Qed.

Lemma digits_fuel_small (fuel : nat) (n : Z) :
  (0 <= n < 10)%Z -> digits_fuel fuel n = [digit_char n].
Proof.
  intros H. destruct fuel; simpl.
  - rewrite Z.mod_small by lia. reflexivity.
  - destruct (Z.ltb_spec n 10); [reflexivity | lia].
Qed.

Lemma digits_fuel_length (fuel : nat) (n : Z) :
  (1 <= length (digits_fuel fuel n))%nat.
Proof.
  revert n. induction fuel as [ | fuel IH]; intros n; simpl; [lia | ].
  destruct (n <? 10)%Z; simpl; [lia | ].
  rewrite length_app; simpl. lia.
Qed.

Lemma digits_length (n : Z) : (1 <= length (digits n))%nat.
Proof. apply digits_fuel_length. Qed.

Lemma digit_char_value (d : Z) :
  (0 <= d < 10)%Z -> digits_value [digit_char d] = d.
Proof.
  intros H. unfold digits_value, digit_char. cbn [fold_left].
  rewrite nat_ascii_embedding by lia. lia.
Qed.

Lemma digits_value_snoc (ds : list ascii) (c : ascii) :
  digits_value (ds ++ [c])
  = (10 * digits_value ds + (Z.of_nat (nat_of_ascii c) - 48))%Z.
Proof. unfold digits_value. rewrite fold_left_app. reflexivity. Qed.

Lemma digits_fuel_value (fuel : nat) :
  forall n : Z,
    (0 <= n < 10 ^ (Z.of_nat fuel + 1))%Z ->
    digits_value (digits_fuel fuel n) = n.
Proof.
  induction fuel as [ | fuel IH]; intros n Hn.
  - change (10 ^ (Z.of_nat 0 + 1))%Z with 10%Z in Hn.
    rewrite digits_fuel_small by exact Hn. apply digit_char_value, Hn.
  - cbn [digits_fuel]. destruct (Z.ltb_spec n 10) as [Hlt | Hge].
    + apply digit_char_value. lia.
    + rewrite digits_value_snoc, IH.
      * pose proof (digit_char_value (n mod 10)
                      (Z.mod_pos_bound n 10 eq_refl)) as Hd.
        unfold digits_value in Hd; cbn [fold_left] in Hd.
        rewrite (Z.div_mod n 10) at 3 by lia. lia.
      * split; [apply Z.div_pos; lia | ].
        apply Z.div_lt_upper_bound; [lia | ].
        rewrite <- Z.pow_succ_r by lia.
        replace (Z.succ (Z.of_nat fuel + 1)) with (Z.of_nat (S fuel) + 1)%Z
          by lia.
        apply Hn.
Qed.

(** [digits] has fuel for every digit of its argument. *)
Lemma digits_value_digits (n : Z) : (0 <= n)%Z -> digits_value (digits n) = n.
Proof.
  intros Hn. unfold digits. apply digits_fuel_value.
  rewrite Z2Nat.id by apply Z.log2_nonneg.
  split; [exact Hn | ].
  destruct (Z.eq_dec n 0) as [-> | Hne]; [reflexivity | ].
  destruct (Z.log2_spec n) as [_ Hup]; [lia | ].
  apply Z.lt_le_trans with (1 := Hup).
  rewrite <- Z.add_1_r.
  apply Z.pow_le_mono_l. pose proof (Z.log2_nonneg n). lia.
Qed.

Lemma digits_two (n : Z) :
  (10 <= n < 100)%Z -> digits n = two_digits n.
Proof.
  intros H. unfold digits, two_digits.
  assert (L : (3 <= Z.log2 n)%Z).
  { apply Z.log2_le_pow2; simpl; lia. }
  destruct (Z.to_nat (Z.log2 n)) as [ | fuel] eqn:E; [lia | ].
  simpl. destruct (Z.ltb_spec n 10); [lia | ].
  rewrite digits_fuel_small by (split; [apply Z.div_pos | apply Z.div_lt_upper_bound]; lia).
  reflexivity.
Qed.

Lemma zfill_2_digits (n : Z) :
  (0 <= n < 100)%Z -> zfill 2 (digits n) = two_digits n.
Proof.
  intros H. destruct (Z.ltb_spec n 10) as [Hlt | Hge].
  - unfold digits. rewrite digits_fuel_small by lia.
    unfold zfill, two_digits; simpl.
    rewrite Z.div_small, Z.mod_small by lia. reflexivity.
  - rewrite digits_two by lia. reflexivity.
Qed.

(** With at least one digit and a minimum width that the digits already
    reach, CPython's grouping loop puts a comma after every third digit and
    adds no zero. *)
Lemma insert_thousands_grouping_rev_group3 (fuel : nat) :
  forall (rds : list ascii) (min_width : Z) (use_separator : bool),
    (1 <= length rds < fuel)%nat ->
    (min_width <= Z.of_nat (length rds))%Z ->
    insert_thousands_grouping_rev fuel rds min_width use_separator
    = (if use_separator then [","%char] else []) ++ group3_rev rds.
Proof.
  induction fuel as [ | fuel IH]; intros rds mw sep Hlen Hmw; [lia | ].
  cbn [insert_thousands_grouping_rev]. cbv zeta.
  replace (Z.min 3 (Z.max (Z.max (Z.of_nat (length rds)) mw) 1))
    with (Z.of_nat (Nat.min 3 (length rds))) by lia.
  replace (Z.max 0 (Z.of_nat (Nat.min 3 (length rds)) - Z.of_nat (length rds)))
    with 0%Z by lia.
  replace (Z.max 0 (Z.min (Z.of_nat (length rds))
                          (Z.of_nat (Nat.min 3 (length rds)))))
    with (Z.of_nat (Nat.min 3 (length rds))) by lia.
  rewrite Nat2Z.id. change (Z.to_nat 0) with 0%nat. cbn [repeat].
  rewrite app_nil_r.
  destruct rds as [ | a [ | b [ | c [ | d rest]]]]; cbn [length] in *;
    try lia.
  - cbn [Nat.min firstn skipn length Z.of_nat group3_rev].
    rewrite (proj2 (Z.leb_le (mw - _) 0)) by lia. reflexivity.
  - cbn [Nat.min firstn skipn length Z.of_nat group3_rev].
    rewrite (proj2 (Z.leb_le (mw - _) 0)) by lia. reflexivity.
  - cbn [Nat.min firstn skipn length Z.of_nat group3_rev].
    rewrite (proj2 (Z.leb_le (mw - _) 0)) by lia. reflexivity.
  - cbn [Nat.min firstn skipn group3_rev].
    destruct (Z.leb_spec (Z.of_nat (length (d :: rest))) 0) as [H0 | H0];
      [cbn [length] in H0; lia | ].
    cbn [andb]. rewrite IH by (cbn [length]; lia).
    destruct sep; reflexivity.
Qed.

Lemma insert_thousands_grouping_2 (ds : list ascii) :
  (1 <= length ds)%nat ->
  insert_thousands_grouping ds 2 = group3 (zfill 2 ds).
Proof.
  intros Hlen. unfold insert_thousands_grouping, group3.
  destruct ds as [ | a [ | b ds]]; cbn [length] in Hlen; [lia | reflexivity | ].
  f_equal. unfold zfill.
  replace (Z.to_nat (2 - Z.of_nat (length (a :: b :: ds)))) with 0%nat
    by (cbn [length]; lia).
  cbn [repeat app].
  rewrite insert_thousands_grouping_rev_group3; [reflexivity | | ].
  - rewrite length_rev. cbn [length]. lia.
  - rewrite length_rev. cbn [length]. lia.
Qed.

Lemma sign_nonneg (x : Q) : 0 <= x -> Qle_bool 0 x = true.
Proof. intros H. apply Qle_bool_iff, H. Qed.

(** [{x:02.0f}] on a whole number below 100. *)
Lemma format_float_whole_2 (x : Q) (m : Z) :
  (0 <= m < 100)%Z -> x == inject_Z m ->
  format_float 2 false 0 x = string_of_list_ascii (two_digits m).
Proof.
  intros Hm Hx.
  assert (H0 : 0 <= x)
    by (rewrite Hx; change 0 with (inject_Z 0); rewrite <- Zle_Qle; lia).
  unfold format_float. cbv zeta.
  rewrite (sign_nonneg x H0). change (10 ^ Z.of_nat 0)%Z with 1%Z.
  rewrite (round_half_even_Z (Qabs x * inject_Z 1) m)
    by (rewrite Qabs_pos by exact H0; rewrite Hx; unfold inject_Z; ring).
  rewrite Z.div_1_r. cbn [length Z.of_nat app].
  change (2 - 0 - 0)%Z with 2%Z.
  rewrite zfill_2_digits by exact Hm. rewrite app_nil_r. reflexivity.
Qed.

(** [{x:02,.0f}] on a whole number that is not negative. *)
Lemma format_float_whole_grouped (x : Q) (h : Z) :
  (0 <= h)%Z -> x == inject_Z h ->
  format_float 2 true 0 x
  = string_of_list_ascii (group3 (zfill 2 (digits h))).
Proof.
  intros Hh Hx.
  assert (H0 : 0 <= x)
    by (rewrite Hx; change 0 with (inject_Z 0); rewrite <- Zle_Qle; lia).
  unfold format_float. cbv zeta.
  rewrite (sign_nonneg x H0). change (10 ^ Z.of_nat 0)%Z with 1%Z.
  rewrite (round_half_even_Z (Qabs x * inject_Z 1) h)
    by (rewrite Qabs_pos by exact H0; rewrite Hx; unfold inject_Z; ring).
  rewrite Z.div_1_r. cbn [length Z.of_nat app].
  change (2 - 0 - 0)%Z with 2%Z.
  rewrite insert_thousands_grouping_2 by apply digits_length.
  rewrite app_nil_r. reflexivity.
Qed.

(** [{x:05.2f}] on a value from 0 up to, not including, 60. *)
Lemma format_float_seconds (x : Q) :
  0 <= x -> x < 60 ->
  let c := round_half_even (x * 100) in
  (0 <= c <= 6000)%Z
  /\ format_float 5 false 2 x
     = string_of_list_ascii
         (two_digits (c / 100) ++ "."%char :: two_digits (c mod 100)).
Proof.
  intros H0 H60 c.
  assert (Hc : (0 <= c <= 6000)%Z).
  { apply round_half_even_range; [lra | ].
    change (inject_Z 6000) with (60 * 100). lra. }
  split; [exact Hc | ].
  unfold format_float. cbv zeta.
  rewrite (sign_nonneg x H0). change (10 ^ Z.of_nat 2)%Z with 100%Z.
  rewrite (round_half_even_comp (Qabs x * inject_Z 100) (x * 100))
    by (rewrite Qabs_pos by exact H0; reflexivity).
  fold c.
  assert (Hq : (0 <= c / 100 < 100)%Z).
  { split; [apply Z.div_pos; lia | apply Z.div_lt_upper_bound; lia]. }
  assert (Hr : (0 <= c mod 100 < 100)%Z) by (apply Z.mod_pos_bound; lia).
  change (Z.of_nat 2) with 2%Z.
  rewrite (zfill_2_digits (c mod 100)) by exact Hr.
  cbn [length Z.of_nat app two_digits].
  change (5 - 0 - Z.pos (Pos.of_succ_nat 2))%Z with 2%Z.
  rewrite (zfill_2_digits (c / 100)) by exact Hq.
  reflexivity.
Qed.

(** The cut of a duration into whole minutes and seconds, and of the whole
    minutes into hours and minutes. *)
Lemma seconds_of_range (t : Q) : 0 <= seconds_of t /\ seconds_of t < 60.
Proof.
  unfold seconds_of.
  pose proof (Qfloor_le (t / 60)) as Hlo.
  pose proof (Qlt_floor (t / 60)) as Hhi.
  rewrite inject_Z_plus in Hhi. change (inject_Z 1) with 1 in Hhi.
  assert (E : t == (t / 60) * 60) by (field; discriminate).
  split; lra.
Qed.

Lemma whole_minutes_nonneg (t : Q) : 0 <= t -> (0 <= Qfloor (t / 60))%Z.
Proof.
  intros H. rewrite <- (Qfloor_Z 0). apply Qfloor_resp_le.
  change (inject_Z 0) with 0.
  assert (E : t == (t / 60) * 60) by (field; discriminate). lra.
Qed.

Lemma Qfloor_div_60 (z : Z) : Qfloor (inject_Z z / 60) = (z / 60)%Z.
Proof. exact (eq_sym (Zdiv_Qdiv z 60)). Qed.

Lemma hours_of_whole_minutes (t : Q) :
  Qfloor (inject_Z (Qfloor (t / 60)) / 60) = hours_of t.
Proof.
  rewrite Qfloor_div_60.
  unfold hours_of. destruct t as [a b].
  unfold Qfloor, Qdiv, Qmult, Qinv; simpl.
  rewrite Z.div_div by lia. f_equal. lia.
Qed.

Lemma minutes_of_whole_minutes (t : Q) :
  inject_Z (Qfloor (t / 60)) - inject_Z (hours_of t) * 60
  == inject_Z (minutes_of t).
Proof.
  rewrite <- hours_of_whole_minutes, Qfloor_div_60. unfold minutes_of.
  rewrite Z.mod_eq by lia. unfold Z.sub.
  rewrite inject_Z_plus, inject_Z_opp, inject_Z_mult.
  change (inject_Z 60) with 60. ring.
Qed.

Lemma watch_time_render (t : Q) :
  0 <= t -> watch_time t = render_HH_MM_SS t.
Proof.
  intros H0.
  pose proof (whole_minutes_nonneg t H0) as HM.
  assert (Hh : (0 <= hours_of t)%Z).
  { rewrite <- hours_of_whole_minutes, Qfloor_div_60.
    apply Z.div_pos; lia. }
  assert (Hm : (0 <= minutes_of t < 60)%Z)
    by (apply Z.mod_pos_bound; lia).
  destruct (seconds_of_range t) as [Hs0 Hs60].
  destruct (format_float_seconds (seconds_of t) Hs0 Hs60) as [_ Hsec].
  unfold watch_time, divmod, render_HH_MM_SS. cbv zeta.
  rewrite hours_of_whole_minutes.
  rewrite (format_float_whole_grouped (inject_Z (hours_of t)) (hours_of t))
    by (try exact Hh; reflexivity).
  rewrite (format_float_whole_2 _ (minutes_of t))
    by (try (apply minutes_of_whole_minutes); lia).
  fold (seconds_of t). rewrite Hsec. reflexivity.
Qed.

Lemma render_fields_range (t : Q) :
  0 <= t ->
  (0 <= hours_of t)%Z /\ (0 <= minutes_of t < 60)%Z
  /\ (0 <= hundredths_of t <= 6000)%Z.
Proof.
  intros H0.
  pose proof (whole_minutes_nonneg t H0) as HM.
  split; [ | split ].
  - rewrite <- hours_of_whole_minutes, Qfloor_div_60.
    apply Z.div_pos; lia.
  - apply Z.mod_pos_bound; lia.
  - destruct (seconds_of_range t) as [Hs0 Hs60].
    apply (format_float_seconds (seconds_of t) Hs0 Hs60).
Qed.

(** What a reachable display shows is never negative, so its text is always
    the rendering above. *)
Lemma reachable_display_text (c : Q) (s : TimeDisplay) :
  reachable c s -> watch_time (time s) = render_HH_MM_SS (time s).
Proof.
  intros Hr. apply watch_time_render.
  destruct (reachable_inv c s Hr) as (_ & _ & Htime & _). exact Htime.
Qed.

End Formatting.

(** C7.  For every duration that is not negative, [watch_time] produces the
    text the specification describes: the whole hours, zero-padded to two
    digits and with a comma every three digits, a colon, the minutes (0 to
    59) as two digits, a colon, and the seconds as two digits, a point and two
    decimals; the digits of the hours field denote the whole hours.  3725.5
    seconds come out as 01:02:05.50. *)
Theorem watch_time_HH_MM_SS (t : Q) :
  0 <= t ->
  watch_time t = render_HH_MM_SS t
  /\ (0 <= hours_of t)%Z
  /\ digits_value (digits (hours_of t)) = hours_of t
  /\ (0 <= minutes_of t < 60)%Z
  /\ (0 <= hundredths_of t <= 6000)%Z
  /\ watch_time (7451 # 2) = "01:02:05.50"%string.
Proof.
  intros H0.
  destruct (render_fields_range t H0) as (Hh & Hm & Hc).
  split; [apply watch_time_render, H0 | ].
  split; [exact Hh | ].
  split; [apply digits_value_digits, Hh | ].
  split; [exact Hm | ].
  split; [exact Hc | reflexivity].
Qed.

Lemma watch_time_HH_MM_SS_witness :
  0 <= 7451 # 2
  /\ watch_time (7451 # 2) = render_HH_MM_SS (7451 # 2)
  /\ render_HH_MM_SS (7451 # 2) = "01:02:05.50"%string.
Proof.
  assert (H : 0 <= 7451 # 2) by (vm_compute; discriminate).
  split; [exact H | ].
  split; [apply (watch_time_HH_MM_SS (7451 # 2) H) | reflexivity].
Defined.

(** C10.  Each field is rounded on its own: 59.999 seconds lie below one
    minute, [divmod] leaves them whole in the seconds field, and two decimals
    round them up to 60.00.  The same holds for the double closest to 59.999
    and, one second below the hour, next to a minutes field of 59. *)
Theorem seconds_field_reaches_60 :
  (0 <= 59999 # 1000 /\ 59999 # 1000 < 60)
  /\ watch_time (59999 # 1000) = "00:00:60.00"%string
  /\ (0 <= double_59_999 /\ double_59_999 < 60)
  /\ watch_time double_59_999 = "00:00:60.00"%string
  /\ watch_time (3599999 # 1000) = "00:59:60.00"%string
  /\ hundredths_of (59999 # 1000) = 6000%Z
  /\ (exists t, 0 <= t /\ t < 60
                /\ exists hh_mm, watch_time t = (hh_mm ++ ":60.00")%string).
Proof.
  assert (B1 : 0 <= 59999 # 1000 /\ 59999 # 1000 < 60)
    by (split; vm_compute; [discriminate | reflexivity]).
  split; [exact B1 | ].
  split; [vm_compute; reflexivity | ].
  split; [split; vm_compute; [discriminate | reflexivity] | ].
  split; [vm_compute; reflexivity | ].
  split; [vm_compute; reflexivity | ].
  split; [vm_compute; reflexivity | ].
  exists (59999 # 1000). destruct B1 as [Ha Hb].
  split; [exact Ha | split; [exact Hb | ]].
  exists "00:00"%string. vm_compute. reflexivity.
Qed.

(** * Buttons and the collection scenario *)

(** The CSS class [started] follows the timer: whatever button is pressed,
    it is set exactly when the display runs. *)
Lemma started_tracks_running (button_id : string) (now : Q) (w : Stopwatch) :
  started w = running (time_display w) ->
  started (on_button_pressed button_id now w)
  = running (time_display (on_button_pressed button_id now w)).
Proof.
  intros H. unfold on_button_pressed.
  destruct (String.eqb button_id "start"); [reflexivity | ].
  destruct (String.eqb button_id "stop"); [reflexivity | ].
  destruct (String.eqb button_id "reset"); [exact H | exact H].
Qed.

(** A key press that is none of the three buttons changes nothing. *)
Lemma on_button_pressed_other (now : Q) (w : Stopwatch) :
  on_button_pressed "lap" now w = w.
Proof. reflexivity. Qed.

(** One stopwatch at start-up, three after two additions, two after a
    removal, none after removing all, and still none after one more
    removal. *)
Example collection_scenario :
  let app0 := compose 0 in
  let app3 := bind (action_add_stopwatch 1 app0) (action_add_stopwatch 2) in
  let app2 := bind app3 action_remove_stopwatch in
  let app_none := bind app2 action_remove_all_stopwatches in
  length (timers app0) = 1%nat
  /\ (exists a, app3 = Ok a /\ length (timers a) = 3%nat)
  /\ (exists a, app2 = Ok a /\ length (timers a) = 2%nat)
  /\ (exists a, app_none = Ok a /\ length (timers a) = 0%nat)
  /\ (exists a, bind app_none action_remove_stopwatch = Ok a
                /\ length (timers a) = 0%nat).
Proof.
  cbv zeta. split; [reflexivity | ].
  repeat split; eexists; split; reflexivity.
Qed.

(** [action_reset_all_stopwatches] resets running displays too: their banked
    time becomes 0 and they keep running. *)
Lemma reset_all_keeps_running (app : StopwatchApp) :
  exists app',
    action_reset_all_stopwatches app = Ok app'
    /\ map (fun w => running (time_display w)) (timers app')
       = map (fun w => running (time_display w)) (timers app)
    /\ Forall (fun w => total (time_display w) == 0) (timers app').
Proof.
  eexists. split; [reflexivity | ]. simpl. split.
  - rewrite map_map. reflexivity.
  - apply Forall_map. apply Forall_forall. intros w _. reflexivity.
Qed.

(** * Buttons, segments and refreshes *)

Lemma press_all_app (l1 l2 : list (string * Q)) (w : Stopwatch) :
  press_all (l1 ++ l2) w = press_all l2 (press_all l1 w).
Proof.
  revert w. induction l1 as [ | [b now] l1 IH]; intros w; simpl;
    [reflexivity | apply IH].
Qed.

Lemma press_all_started (log : list (string * Q)) (w : Stopwatch) :
  started w = running (time_display w) ->
  started (press_all log w) = running (time_display (press_all log w)).
Proof.
  revert w. induction log as [ | [b now] log IH]; intros w H; simpl;
    [exact H | ].
  apply IH. apply started_tracks_running, H.
Qed.

(** X1.  Whatever buttons are pressed on a new stopwatch, in whatever order
    and at whatever clock readings, the CSS class [started] is set exactly
    when the refresh timer of its display is running. *)
Theorem started_class_follows_timer (log : list (string * Q)) (now0 : Q) :
  started (press_all log (new_Stopwatch now0))
  = running (time_display (press_all log (new_Stopwatch now0))).
Proof. apply press_all_started. reflexivity. Qed.

(** X2.  [on_button_pressed] leaves every stopwatch as it is exactly for the
    ids that are not ids of the buttons [compose] creates: an unknown id is
    ignored, and each of the three buttons changes some stopwatch. *)
Theorem button_handled_iff_composed (button_id : string) :
  (forall now w, on_button_pressed button_id now w = w)
  <-> ~ In button_id (button_ids Stopwatch_compose).
Proof.
  split.
  - intros H Hin. simpl in Hin.
    destruct Hin as [<- | [<- | [<- | []]]].
    + specialize (H 0 (new_Stopwatch 0)). discriminate H.
    + specialize (H 0 {| time_display := on_mount 0; started := true |}).
      discriminate H.
    + specialize (H 0 {| time_display := stop 1 (on_mount 0);
                         started := false |}).
      discriminate H.
  - intros Hnot now w. simpl in Hnot. unfold on_button_pressed.
    destruct (String.eqb_spec button_id "start") as [-> | _];
      [exfalso; apply Hnot; auto | ].
    destruct (String.eqb_spec button_id "stop") as [-> | _];
      [exfalso; apply Hnot; auto | ].
    destruct (String.eqb_spec button_id "reset") as [-> | _];
      [exfalso; apply Hnot; auto | reflexivity].
Qed.

Lemma segment_presses_total (segs : list (Q * Q)) :
  forall w,
    total (time_display (press_all (segment_presses segs) w))
    == total (time_display w) + segments_length segs.
Proof.
  induction segs as [ | [a b] segs IH]; intros w; simpl.
  - lra.
  - rewrite IH. simpl. lra.
Qed.

(** X3.  Pressing start and stop in turn, once for each of a list of
    segments, adds the lengths of the segments to the banked time, whatever
    state the stopwatch was in before: the time between a stop and the next
    start is not counted.  After the last stop the stopwatch is paused and
    shows the banked time. *)
Theorem segments_accumulate (segs : list (Q * Q)) (w : Stopwatch) :
  total (time_display (press_all (segment_presses segs) w))
  == total (time_display w) + segments_length segs
  /\ (forall seg,
        let w' := press_all (segment_presses (segs ++ [seg])) w in
        started w' = false
        /\ running (time_display w') = false
        /\ time (time_display w') == total (time_display w')).
Proof.
  split; [apply segment_presses_total | ].
  intros [a b]. unfold segment_presses. rewrite flat_map_app, press_all_app.
  simpl. repeat split; reflexivity.
Qed.

Lemma replay_ticks_fields (instants : list Q) :
  forall s,
    start_time (replay (ticks instants) s) = start_time s
    /\ total (replay (ticks instants) s) = total s
    /\ update_timer (replay (ticks instants) s) = update_timer s.
Proof.
  induction instants as [ | t instants IH]; intros s; simpl; [auto | ].
  destruct (IH (interval t s)) as (H1 & H2 & H3).
  rewrite H1, H2, H3. unfold interval.
  destruct (active (update_timer s)); auto.
Qed.

Lemma replay_ticks_paused (instants : list Q) :
  forall s, running s = false -> replay (ticks instants) s = s.
Proof.
  induction instants as [ | t instants IH]; intros s Hp; simpl;
    [reflexivity | ].
  unfold interval. unfold running in Hp. rewrite Hp. apply IH, Hp.
Qed.

(** X4.  Refreshes are display only: after any number of firings of the
    interval timer, at any clock readings, the start instant, the banked time
    and the timer are what they were, and the value the next refresh shows
    does not depend on the refreshes that came before. *)
Theorem refresh_is_display_only (instants : list Q) (s : TimeDisplay) :
  start_time (replay (ticks instants) s) = start_time s
  /\ total (replay (ticks instants) s) = total s
  /\ update_timer (replay (ticks instants) s) = update_timer s
  /\ (forall now,
        current_elapsed now (replay (ticks instants) s)
        = current_elapsed now s).
Proof.
  destruct (replay_ticks_fields instants s) as (H1 & H2 & H3).
  repeat split; try assumption.
  intros now. unfold current_elapsed, interval. rewrite H3.
  destruct (active (update_timer s)) eqn:E.
  - simpl. rewrite H1, H2. reflexivity.
  - rewrite replay_ticks_paused by exact E. reflexivity.
Qed.

(** X5.  Neither button makes the shown value jump.  On a reachable display,
    [stop] on a running display freezes the value a refresh at that instant
    would show, later refreshes leave it frozen, and [start] on a paused
    display goes on from the value shown. *)
Theorem no_jump_on_stop_or_start (c now : Q) (s : TimeDisplay) :
  reachable c s ->
  (running s = true -> time (stop now s) == current_elapsed now s)
  /\ (forall instants,
        time (replay (ticks instants) (stop now s)) = time (stop now s))
  /\ (running s = false ->
      current_elapsed now (start now s) == current_elapsed now s).
Proof.
  intros Hreach. split; [ | split ].
  - intros Hr. rewrite (current_elapsed_running now s Hr). reflexivity.
  - intros instants. rewrite replay_ticks_paused; reflexivity.
  - intros Hp. rewrite (current_elapsed_paused now s Hp).
    destruct (reachable_inv c s Hreach) as (_ & _ & _ & Hinv).
    rewrite (Hinv Hp). unfold current_elapsed. simpl. lra.
Qed.

Lemma no_jump_on_stop_or_start_witness :
  reachable 3 banked_3
  /\ running banked_3 = false
  /\ current_elapsed 10 (start 10 banked_3) == current_elapsed 10 banked_3.
Proof.
  split; [apply reachable_banked_3 | ].
  split; [reflexivity | ].
  apply (no_jump_on_stop_or_start 3 10 banked_3 reachable_banked_3).
  reflexivity.
Defined.

(** X6.  A paused display that is reset shows 0 at every refresh until it is
    started, and once started at [t1] a refresh at [t] shows [t - t1]: the
    count goes on from zero. *)
Theorem reset_paused_then_start (s : TimeDisplay) (instants : list Q)
    (t1 t : Q) :
  running s = false ->
  (forall now, current_elapsed now (reset s) == 0)
  /\ time (replay (ticks instants) (reset s)) == 0
  /\ current_elapsed t (start t1 (replay (ticks instants) (reset s)))
     == t - t1.
Proof.
  intros Hp.
  assert (Hp' : running (reset s) = false) by exact Hp.
  rewrite (replay_ticks_paused instants (reset s) Hp').
  repeat split.
  - intros now. rewrite (current_elapsed_paused now (reset s) Hp').
    reflexivity.
  - unfold current_elapsed. simpl. lra.
Qed.

Lemma reset_paused_then_start_witness :
  running banked_3 = false
  /\ current_elapsed 12 (start 10 (replay (ticks [4; 5]) (reset banked_3)))
     == 12 - 10.
Proof.
  split; [reflexivity | ].
  apply (reset_paused_then_start banked_3 [4; 5] 10 12 eq_refl).
Defined.

(** * The text on display *)

Lemma format_float_comp (width : Z) (comma : bool) (precision : nat)
    (x y : Q) :
  x == y ->
  format_float width comma precision x = format_float width comma precision y.
Proof.
  intros H. unfold format_float.
  rewrite (round_half_even_comp
             (Qabs x * inject_Z (10 ^ Z.of_nat precision))
             (Qabs y * inject_Z (10 ^ Z.of_nat precision)))
    by (rewrite H; reflexivity).
  rewrite (Qleb_comp 0 0 (Qeq_refl 0) x y H). reflexivity.
Qed.

(** The text depends on the duration only, not on the fraction that
    stands for it. *)
Lemma watch_time_comp (t t' : Q) : t == t' -> watch_time t = watch_time t'.
Proof.
  intros H. unfold watch_time, divmod.
  assert (E : Qfloor (t / 60) = Qfloor (t' / 60))
    by (apply Qfloor_comp; rewrite H; reflexivity).
  rewrite E.
  rewrite (format_float_comp 5 false 2
             (t - inject_Z (Qfloor (t' / 60)) * 60)
             (t' - inject_Z (Qfloor (t' / 60)) * 60))
    by (rewrite H; reflexivity).
  reflexivity.
Qed.

Lemma shown_step_text (e : event) (now : Q) (w : Shown) :
  renderable w = watch_time (time (display w)) ->
  renderable (shown_step e now w)
  = watch_time (time (display (shown_step e now w))).
Proof.
  intros H. unfold shown_step, assign_time. cbn [display renderable].
  destruct (Qeq_bool (time (display w)) (time (step e now (display w))))
    eqn:E; [ | reflexivity].
  apply Qeq_bool_iff in E. rewrite H. apply watch_time_comp, E.
Qed.

(** X7.  The text on display is always the rendering of the stored [time]:
    it starts as the text [compose] gives, and although the watcher runs only
    when an assignment changes the value, no event leaves a stale text
    behind. *)
Theorem text_is_watch_time (log : list (event * Q)) (now0 : Q) :
  renderable (shown_replay log (shown_on_mount now0))
  = watch_time (time (display (shown_replay log (shown_on_mount now0)))).
Proof.
  assert (G : forall w, renderable w = watch_time (time (display w)) ->
                        renderable (shown_replay log w)
                        = watch_time (time (display (shown_replay log w)))).
  { induction log as [ | [e now] log IH]; intros w H; simpl; [exact H | ].
    apply IH, shown_step_text, H. }
  apply G. reflexivity.
Qed.

(** X8.  What a reachable display stores as [time] is never negative, so
    the text made from it always has the layout hours, minutes below 60 and
    seconds with two decimals, never a sign. *)
Theorem reachable_text_layout (c : Q) (s : TimeDisplay) :
  reachable c s ->
  0 <= time s
  /\ watch_time (time s) = render_HH_MM_SS (time s)
  /\ (0 <= hours_of (time s))%Z
  /\ (0 <= minutes_of (time s) < 60)%Z
  /\ (0 <= hundredths_of (time s) <= 6000)%Z.
Proof.
  intros Hr.
  destruct (reachable_inv c s Hr) as (_ & _ & Htime & _).
  split; [exact Htime | ].
  split; [apply watch_time_render, Htime | ].
  apply render_fields_range, Htime.
Qed.

Lemma reachable_text_layout_witness :
  reachable 3 banked_3
  /\ watch_time (time banked_3) = render_HH_MM_SS (time banked_3).
Proof.
  split; [apply reachable_banked_3 | ].
  apply (reachable_text_layout 3 banked_3 reachable_banked_3).
Defined.

(** * Reading the text back *)

Section Reading.

Lemma string_of_list_ascii_app (a b : list ascii) :
  string_of_list_ascii (a ++ b)
  = (string_of_list_ascii a ++ string_of_list_ascii b)%string.
Proof. induction a as [ | c a IH]; simpl; [reflexivity | rewrite IH; reflexivity]. Qed.

Lemma length_string_of_list_ascii (l : list ascii) :
  String.length (string_of_list_ascii l) = length l.
Proof. induction l as [ | c l IH]; simpl; [reflexivity | rewrite IH; reflexivity]. Qed.

Lemma get_string_of_list_ascii (l : list ascii) :
  forall n, String.get n (string_of_list_ascii l) = nth_error l n.
Proof.
  induction l as [ | c l IH]; intros [ | n]; simpl; try reflexivity.
  apply IH.
Qed.

Lemma render_chars_eq (t : Q) :
  render_HH_MM_SS t = string_of_list_ascii (render_chars t).
Proof.
  unfold render_HH_MM_SS, render_chars.
  rewrite string_of_list_ascii_app. cbn [string_of_list_ascii].
  rewrite string_of_list_ascii_app. cbn [string_of_list_ascii].
  reflexivity.
Qed.

Lemma is_digit_digit_char (d : Z) :
  (0 <= d < 10)%Z -> is_digit (digit_char d) = true.
Proof.
  intros H. unfold is_digit, digit_char.
  rewrite nat_ascii_embedding by lia.
  apply andb_true_intro; split; apply Nat.leb_le; lia.
Qed.

Lemma digit_char_inj (a b : Z) :
  (0 <= a < 10)%Z -> (0 <= b < 10)%Z -> digit_char a = digit_char b -> a = b.
Proof.
  intros Ha Hb E.
  rewrite <- (digit_char_value a Ha), <- (digit_char_value b Hb), E.
  reflexivity.
Qed.

Lemma digits_fuel_all_digits (fuel : nat) :
  forall n, (0 <= n)%Z ->
            Forall (fun c => is_digit c = true) (digits_fuel fuel n).
Proof.
  induction fuel as [ | fuel IH]; intros n Hn; cbn [digits_fuel].
  - constructor; [ | constructor].
    apply is_digit_digit_char, Z.mod_pos_bound. lia.
  - destruct (Z.ltb_spec n 10) as [Hlt | Hge].
    + constructor; [ | constructor]. apply is_digit_digit_char. lia.
    + apply Forall_app. split.
      * apply IH. apply Z.div_pos; lia.
      * constructor; [ | constructor].
        apply is_digit_digit_char, Z.mod_pos_bound. lia.
Qed.

Lemma zfill_all_digits (w : Z) (ds : list ascii) :
  Forall (fun c => is_digit c = true) ds ->
  Forall (fun c => is_digit c = true) (zfill w ds).
Proof.
  intros H. unfold zfill. apply Forall_app. split; [ | exact H].
  apply Forall_forall. intros c Hc. apply repeat_spec in Hc. subst c.
  reflexivity.
Qed.

Lemma two_digits_all_digits (m : Z) :
  (0 <= m < 100)%Z -> Forall (fun c => is_digit c = true) (two_digits m).
Proof.
  intros H. unfold two_digits.
  constructor; [ | constructor; [ | constructor]].
  - apply is_digit_digit_char.
    split; [apply Z.div_pos; lia | apply Z.div_lt_upper_bound; lia].
  - apply is_digit_digit_char, Z.mod_pos_bound. lia.
Qed.

Lemma filter_all (l : list ascii) :
  Forall (fun c => is_digit c = true) l -> filter is_digit l = l.
Proof.
  induction 1 as [ | c l Hc _ IH]; simpl; [reflexivity | ].
  rewrite Hc, IH. reflexivity.
Qed.

Lemma digits_value_zero_cons (l : list ascii) :
  digits_value ("0"%char :: l) = digits_value l.
Proof. reflexivity. Qed.

Lemma digits_value_zfill (w : Z) (ds : list ascii) :
  digits_value (zfill w ds) = digits_value ds.
Proof.
  unfold zfill.
  induction (Z.to_nat (w - Z.of_nat (length ds))) as [ | k IH];
    [reflexivity | ].
  cbn [repeat app]. rewrite digits_value_zero_cons. exact IH.
Qed.

Lemma digits_value_two_digits (m : Z) :
  (0 <= m < 100)%Z -> digits_value (two_digits m) = m.
Proof.
  intros H. unfold two_digits.
  change [digit_char (m / 10); digit_char (m mod 10)]
    with ([digit_char (m / 10)] ++ [digit_char (m mod 10)]).
  rewrite digits_value_snoc.
  pose proof (digit_char_value (m mod 10) (Z.mod_pos_bound m 10 eq_refl))
    as Hd.
  unfold digits_value in Hd; cbn [fold_left] in Hd.
  rewrite digit_char_value
    by (split; [apply Z.div_pos; lia | apply Z.div_lt_upper_bound; lia]).
  rewrite (Z.div_mod m 10) at 3 by lia. lia.
Qed.

(** [group3_rev] only adds commas: dropping them gives the digits back. *)
Lemma group3_rev_facts (n : nat) :
  forall l,
    (length l <= n)%nat ->
    Forall (fun c => is_digit c = true) l ->
    filter is_digit (group3_rev l) = l
    /\ Forall digit_or_comma (group3_rev l)
    /\ (length l <= length (group3_rev l))%nat.
Proof.
  induction n as [ | n IH]; intros l Hlen Hd.
  - destruct l; [ | simpl in Hlen; lia].
    repeat split; constructor.
  - destruct l as [ | a [ | b [ | c [ | d rest]]]];
      try (cbn [group3_rev]; split; [apply filter_all, Hd | split;
             [ eapply Forall_impl; [ | exact Hd]; intros x Hx; left; exact Hx
             | lia ]]).
    inversion Hd as [ | ? ? Ha Hd1]; subst.
    inversion Hd1 as [ | ? ? Hb Hd2]; subst.
    inversion Hd2 as [ | ? ? Hc Hd3]; subst.
    destruct (IH (d :: rest)) as (F & G & L);
      [cbn [length] in *; lia | exact Hd3 | ].
    change (group3_rev (a :: b :: c :: d :: rest))
      with (a :: b :: c :: ","%char :: group3_rev (d :: rest)).
    split; [ | split].
    + cbn [filter]. rewrite Ha, Hb, Hc.
      change (is_digit ","%char) with false. cbv iota.
      rewrite F. reflexivity.
    + repeat (constructor; [left; assumption | ]).
      constructor; [right; reflexivity | exact G].
    + cbn [length] in *. lia.
Qed.

Lemma read_number_group3 (ds : list ascii) :
  Forall (fun c => is_digit c = true) ds ->
  read_number (group3 ds) = digits_value ds
  /\ Forall digit_or_comma (group3 ds)
  /\ (length ds <= length (group3 ds))%nat.
Proof.
  intros Hd.
  assert (Hr : Forall (fun c => is_digit c = true) (rev ds))
    by (apply Forall_rev, Hd).
  destruct (group3_rev_facts (length (rev ds)) (rev ds) (le_n _) Hr)
    as (F & G & L).
  unfold read_number, group3. split; [ | split].
  - rewrite filter_rev, F, rev_involutive. reflexivity.
  - apply Forall_rev, G.
  - rewrite length_rev. rewrite length_rev in L. exact L.
Qed.

Lemma cut_at_app (sep : ascii) (before after : list ascii) :
  Forall (fun c => c <> sep) before ->
  cut_at sep (before ++ sep :: after) = Some (before, after).
Proof.
  induction 1 as [ | c before Hc _ IH]; simpl.
  - rewrite Ascii.eqb_refl. reflexivity.
  - destruct (Ascii.eqb_spec c sep) as [E | _]; [contradiction | ].
    rewrite IH. reflexivity.
Qed.

Lemma digit_not_sep (sep : ascii) (l : list ascii) :
  is_digit sep = false ->
  Forall (fun c => is_digit c = true) l -> Forall (fun c => c <> sep) l.
Proof.
  intros Hs H. eapply Forall_impl; [ | exact H].
  intros c Hc E. subst c. congruence.
Qed.

Lemma hours_field_facts (h : Z) :
  (0 <= h)%Z ->
  read_number (group3 (zfill 2 (digits h))) = h
  /\ Forall (fun c => c <> ":"%char) (group3 (zfill 2 (digits h)))
  /\ (2 <= length (group3 (zfill 2 (digits h))))%nat.
Proof.
  intros Hh.
  assert (Hd : Forall (fun c => is_digit c = true) (zfill 2 (digits h)))
    by (apply zfill_all_digits, digits_fuel_all_digits, Hh).
  destruct (read_number_group3 _ Hd) as (R & G & L).
  split; [ | split].
  - rewrite R, digits_value_zfill. apply digits_value_digits, Hh.
  - eapply Forall_impl; [ | exact G].
    intros c [Hc | ->] E; [subst c; discriminate Hc | discriminate E].
  - eapply Nat.le_trans; [ | exact L].
    unfold zfill. rewrite length_app, repeat_length.
    pose proof (digits_length h). lia.
Qed.

(** The text of a duration that is not negative, read back. *)
Lemma read_time_render (t : Q) :
  0 <= t ->
  read_time (render_HH_MM_SS t)
  = Some (hours_of t, minutes_of t, hundredths_of t).
Proof.
  intros H0.
  destruct (render_fields_range t H0) as (Hh & Hm & Hc).
  destruct (hours_field_facts (hours_of t) Hh) as (Rh & Nh & _).
  assert (Hq : (0 <= hundredths_of t / 100 < 100)%Z)
    by (split; [apply Z.div_pos; lia | apply Z.div_lt_upper_bound; lia]).
  assert (Hr : (0 <= hundredths_of t mod 100 < 100)%Z)
    by (apply Z.mod_pos_bound; lia).
  unfold read_time. rewrite render_chars_eq, list_ascii_of_string_of_list_ascii.
  unfold render_chars.
  rewrite (cut_at_app ":"%char _ _ Nh).
  rewrite (cut_at_app ":"%char (two_digits (minutes_of t)))
    by (apply digit_not_sep; [reflexivity | apply two_digits_all_digits; lia]).
  rewrite (cut_at_app "."%char (two_digits (hundredths_of t / 100)))
    by (apply digit_not_sep;
        [reflexivity | apply two_digits_all_digits; exact Hq]).
  rewrite Rh. unfold read_number.
  rewrite !filter_all by (apply two_digits_all_digits; lia).
  rewrite !digits_value_two_digits by lia.
  rewrite (Z.div_mod (hundredths_of t) 100) at 3 by lia.
  reflexivity.
Qed.

End Reading.

(** X9.  The text of a duration that is not negative can be read back: cut
    at the colons and the point, its digits give the whole hours, the
    minutes and the seconds in rounded hundredths.  So two such durations get
    the same text exactly when they agree in these three numbers. *)
Theorem text_reads_back (t t' : Q) :
  0 <= t -> 0 <= t' ->
  read_time (watch_time t)
  = Some (hours_of t, minutes_of t, hundredths_of t)
  /\ (watch_time t = watch_time t'
      <-> hours_of t = hours_of t' /\ minutes_of t = minutes_of t'
          /\ hundredths_of t = hundredths_of t').
Proof.
  intros H0 H0'.
  rewrite (watch_time_render t H0), (watch_time_render t' H0').
  split; [apply read_time_render, H0 | ].
  split.
  - intros E. apply (f_equal read_time) in E.
    rewrite (read_time_render t H0), (read_time_render t' H0') in E.
    injection E as E1 E2 E3. auto.
  - intros (E1 & E2 & E3). unfold render_HH_MM_SS.
    rewrite E1, E2, E3. reflexivity.
Qed.

Lemma text_reads_back_witness :
  0 <= 7451 # 2 /\ 0 <= 7451 # 2
  /\ read_time (watch_time (7451 # 2)) = Some (1%Z, 2%Z, 550%Z).
Proof.
  assert (H : 0 <= 7451 # 2) by (vm_compute; discriminate).
  split; [exact H | split; [exact H | ]].
  apply (text_reads_back (7451 # 2) (7451 # 2) H H).
Defined.

Lemma hours_of_below_100 (t : Q) : t < 360000 -> (hours_of t < 100)%Z.
Proof.
  intros H. unfold hours_of. rewrite Zlt_Qlt.
  pose proof (Qfloor_le (t / 3600)) as Hf.
  assert (E : t == (t / 3600) * 3600) by (field; discriminate).
  change (inject_Z 100) with 100. lra.
Qed.

(** X10.  The text of a duration that is not negative has at least 11
    characters, and below 100 hours exactly 11, with the colons at positions
    2 and 5 and the decimal point at position 8. *)
Theorem text_width (t : Q) :
  0 <= t ->
  (11 <= String.length (watch_time t))%nat
  /\ (t < 360000 ->
      String.length (watch_time t) = 11%nat
      /\ String.get 2 (watch_time t) = Some ":"%char
      /\ String.get 5 (watch_time t) = Some ":"%char
      /\ String.get 8 (watch_time t) = Some "."%char).
Proof.
  intros H0. rewrite (watch_time_render t H0), render_chars_eq.
  destruct (render_fields_range t H0) as (Hh & _ & _).
  split.
  - rewrite length_string_of_list_ascii. unfold render_chars.
    destruct (hours_field_facts (hours_of t) Hh) as (_ & _ & L).
    rewrite length_app. cbn [length two_digits app]. lia.
  - intros H100. pose proof (hours_of_below_100 t H100) as Hlt.
    rewrite length_string_of_list_ascii, !get_string_of_list_ascii.
    unfold render_chars. rewrite zfill_2_digits by lia.
    repeat split.
Qed.

Lemma text_width_witness :
  0 <= 7451 # 2 /\ (11 <= String.length (watch_time (7451 # 2)))%nat.
Proof.
  assert (H : 0 <= 7451 # 2) by (vm_compute; discriminate).
  split; [exact H | ].
  apply (text_width (7451 # 2) H).
Defined.

Lemma round_half_even_6000 (q : Q) :
  0 <= q -> q < 6000 ->
  (round_half_even q = 6000%Z <-> 11999 # 2 <= q).
Proof.
  intros H0 H6.
  assert (Hf : (Qfloor q < 6000)%Z).
  { rewrite Zlt_Qlt. pose proof (Qfloor_le q).
    change (inject_Z 6000) with 6000. lra. }
  destruct (round_half_even_bounds q) as [[Hlo Hup] Hhalf].
  split.
  - intros E.
    assert (Ef : Qfloor q = 5999%Z) by lia.
    assert (E1 : round_half_even q = (Qfloor q + 1)%Z) by lia.
    specialize (Hhalf E1). rewrite Ef in Hhalf.
    change (inject_Z 5999) with 5999 in Hhalf. lra.
  - intros Hge.
    assert (Ef : Qfloor q = 5999%Z).
    { assert (L : (5999 <= Qfloor q)%Z).
      { rewrite <- (Qfloor_Z 5999). apply Qfloor_resp_le.
        change (inject_Z 5999) with 5999. lra. }
      lia. }
    unfold round_half_even. rewrite Ef.
    change (inject_Z 5999) with 5999.
    destruct (Qcompare (q - 5999) (1 # 2)) eqn:C; try reflexivity.
    apply Qlt_alt in C. lra.
Qed.

(** X11.  The seconds field of any duration reads 60.00 exactly when the
    seconds left over after the whole minutes are at least 59.995: these are
    the durations whose text shows a full minute in the seconds field instead
    of carrying it into the minutes. *)
Theorem seconds_field_60_iff (t : Q) :
  seconds_field t = "60.00"%string <-> 59995 # 1000 <= seconds_of t.
Proof.
  destruct (seconds_of_range t) as [Hs0 Hs60].
  destruct (format_float_seconds (seconds_of t) Hs0 Hs60) as [Hc Hfmt].
  fold (hundredths_of t) in Hc, Hfmt.
  unfold seconds_field, divmod. cbn [snd]. fold (seconds_of t).
  rewrite Hfmt.
  assert (R : hundredths_of t = 6000%Z <-> 59995 # 1000 <= seconds_of t).
  { unfold hundredths_of.
    rewrite (round_half_even_6000 (seconds_of t * 100)) by lra.
    split; intros; lra. }
  rewrite <- R. split.
  - intros E. apply (f_equal list_ascii_of_string) in E.
    rewrite list_ascii_of_string_of_list_ascii in E.
    cbn [list_ascii_of_string two_digits app] in E.
    injection E as E1 E2 E3 E4.
    assert (Hq : (0 <= hundredths_of t / 100 < 100)%Z)
      by (split; [apply Z.div_pos; lia | apply Z.div_lt_upper_bound; lia]).
    assert (Hr : (0 <= hundredths_of t mod 100 < 100)%Z)
      by (apply Z.mod_pos_bound; lia).
    change "6"%char with (digit_char 6) in E1.
    change "0"%char with (digit_char 0) in E2, E3, E4.
    apply digit_char_inj in E1;
      [ | split; [apply Z.div_pos; lia | apply Z.div_lt_upper_bound; lia]
        | lia ].
    apply digit_char_inj in E2; [ | apply Z.mod_pos_bound; lia | lia ].
    apply digit_char_inj in E3;
      [ | split; [apply Z.div_pos; lia | apply Z.div_lt_upper_bound; lia]
        | lia ].
    apply digit_char_inj in E4; [ | apply Z.mod_pos_bound; lia | lia ].
    rewrite (Z.div_mod (hundredths_of t) 100) by lia.
    rewrite (Z.div_mod (hundredths_of t / 100) 10) by lia.
    rewrite (Z.div_mod (hundredths_of t mod 100) 10) by lia.
    rewrite E1, E2, E3, E4. reflexivity.
  - intros E. rewrite E. reflexivity.
Qed.

(** * Series of actions on the collection *)

Lemma run_action_count (a : action) (app : StopwatchApp) :
  exists app',
    run_action a app = Ok app'
    /\ length (timers app') = count_after a (length (timers app)).
Proof.
  destruct app as [d l]. destruct a; simpl.
  - eexists; split; [reflexivity | ]. simpl. rewrite length_app. simpl. lia.
  - eexists; split; [reflexivity | ]. rewrite remove_all_query. reflexivity.
  - destruct l as [ | x l _] using rev_ind.
    + eexists; split; reflexivity.
    + rewrite action_remove_stopwatch_snoc.
      eexists; split; [reflexivity | ]. simpl. rewrite length_app. simpl. lia.
  - eexists; split; [reflexivity | ]. simpl. apply length_map.
  - eexists; split; reflexivity.
Qed.

(** X12.  No series of actions raises an exception, and the number of
    stopwatches it leaves follows from the number before: one more for each
    addition, one less for each removal unless there is none, none after a
    removal of all, and the same after a reset of all or a change of the
    colour mode. *)
Theorem run_actions_count (l : list action) (app : StopwatchApp) :
  exists app',
    run_actions l app = Ok app'
    /\ length (timers app')
       = fold_left (fun n a => count_after a n) l (length (timers app)).
Proof.
  revert app. induction l as [ | a l IH]; intros app; simpl.
  - eexists; split; reflexivity.
  - destruct (run_action_count a app) as (app1 & E1 & L1).
    rewrite E1. simpl. rewrite <- L1. apply IH.
Qed.

(** X13.  Adding, removing one, removing all and changing the colour mode
    never change a stopwatch that stays: every stopwatch found at a position
    that existed before the action is the stopwatch that was there, with its
    display as it was. *)
Theorem survivors_untouched (a : action) (app app' : StopwatchApp)
    (i : nat) (w : Stopwatch) :
  a <> reset_all_stopwatches ->
  run_action a app = Ok app' ->
  (i < length (timers app))%nat ->
  nth_error (timers app') i = Some w ->
  nth_error (timers app) i = Some w.
Proof.
  intros Ha Hrun Hi Hw. destruct app as [d l].
  destruct a; cbn [run_action] in Hrun; cbn [timers] in Hi |- *.
  - unfold action_add_stopwatch in Hrun. injection Hrun as <-.
    cbn [timers] in Hw.
    rewrite nth_error_app1 in Hw by exact Hi. exact Hw.
  - unfold action_remove_all_stopwatches in Hrun.
    rewrite remove_all_query in Hrun. injection Hrun as <-.
    destruct i; discriminate Hw.
  - destruct l as [ | x l _] using rev_ind.
    + injection Hrun as <-. exact Hw.
    + rewrite action_remove_stopwatch_snoc in Hrun. injection Hrun as <-.
      cbn [timers] in Hw. rewrite nth_error_app1; [exact Hw | ].
      apply nth_error_Some. congruence.
  - congruence.
  - unfold action_toggle_dark in Hrun. injection Hrun as <-. exact Hw.
Qed.

Lemma survivors_untouched_witness :
  remove_stopwatch <> reset_all_stopwatches
  /\ run_action remove_stopwatch
       {| dark := true; timers := [new_Stopwatch 0; new_Stopwatch 1] |}
     = Ok {| dark := true; timers := [new_Stopwatch 0] |}
  /\ nth_error [new_Stopwatch 0; new_Stopwatch 1] 0 = Some (new_Stopwatch 0).
Proof.
  split; [discriminate | ]. split; [reflexivity | ].
  apply (survivors_untouched remove_stopwatch
           {| dark := true; timers := [new_Stopwatch 0; new_Stopwatch 1] |}
           {| dark := true; timers := [new_Stopwatch 0] |}
           0 (new_Stopwatch 0));
    [discriminate | reflexivity | simpl; lia | reflexivity].
Defined.

(** X14.  Resetting all stopwatches keeps their number, their order, their
    running state and start instant; it sets the banked and the shown time of
    each to 0; and doing it twice is the same as doing it once. *)
Theorem reset_all_idempotent (app : StopwatchApp) :
  exists app',
    action_reset_all_stopwatches app = Ok app'
    /\ action_reset_all_stopwatches app' = Ok app'
    /\ dark app' = dark app
    /\ length (timers app') = length (timers app)
    /\ (forall i w,
          nth_error (timers app) i = Some w ->
          exists w',
            nth_error (timers app') i = Some w'
            /\ started w' = started w
            /\ update_timer (time_display w') = update_timer (time_display w)
            /\ start_time (time_display w') = start_time (time_display w)
            /\ total (time_display w') = 0
            /\ time (time_display w') = 0).
Proof.
  eexists. split; [reflexivity | ].
  split; [ | split; [reflexivity | split; [apply length_map | ]]].
  - unfold action_reset_all_stopwatches. simpl. rewrite map_map. reflexivity.
  - intros i w Hw. simpl. rewrite nth_error_map, Hw. simpl.
    eexists. split; [reflexivity | ]. repeat split.
Qed.

(** * Gated use of the buttons *)




